(** * nasa_apod_desktop: a shallow embedding and its properties

    The development follows [nasa_apod_desktop.py] function by function.
    Text is a byte string ([string]); Python integers are [Z]; the file
    system is a finite map from paths to an abstraction of the file's
    content; the network, the display query, GLib, the clock and the
    random generator are read-only oracles collected in a record [env].
    Every function that touches the outside world is written in a small
    state-and-outcome monad whose state carries the file system and the
    trace of externally visible actions.

    The script is written in Python 3 syntax and calls the Python 2
    modules [urllib] and [urllib2]. The embedding follows the statements
    as they are written: the language behaves as Python 3 ([int], [==],
    argument binding), the library calls do what their names say, and
    every text (page, display query, header) is a string of bytes.
    [print] and the download progress hook only write to the terminal
    and are left out; [SHOW_DEBUG] is kept as a parameter and changes
    nothing else. *)

From Stdlib Require Import Ascii.
From stdpp Require Import base strings list gmap pretty.

Local Open Scope Z_scope.

(** ** Characters and byte strings *)

Module Text.

Definition code (c : ascii) : N := Ascii.N_of_ascii c.

Definition is_digit (c : ascii) : bool :=
  ((48 <=? code c) && (code c <=? 57))%N.

Definition digit_val (c : ascii) : Z := Z.of_N (code c) - 48.

Definition is_upper (c : ascii) : bool :=
  ((65 <=? code c) && (code c <=? 90))%N.

(** ASCII lower-casing, the folding [re.IGNORECASE] applies to bytes. *)
Definition lower (c : ascii) : ascii :=
  if is_upper c then Ascii.ascii_of_N (code c + 32) else c.

Definition eqb_ci (a b : ascii) : bool := Ascii.eqb (lower a) (lower b).

Definition newline : ascii := Ascii.ascii_of_N 10.
Definition dquote : ascii := Ascii.ascii_of_N 34.

Definition is_newline (c : ascii) : bool := Ascii.eqb c newline.

(** The characters [int()] strips around a numeral. *)
Definition is_space (c : ascii) : bool :=
  ((9 <=? code c) && (code c <=? 13) || (28 <=? code c) && (code c <=? 32))%N.

(** [strip_prefix p s] is the rest of [s] after the literal [p]. *)
Fixpoint strip_prefix (p s : string) : option string :=
  match p with
  | EmptyString => Some s
  | String a p' =>
      match s with
      | String b s' => if Ascii.eqb a b then strip_prefix p' s' else None
      | EmptyString => None
      end
  end.

(** The same, letters compared without case; the matched text is
    returned with the rest, in the case the subject has it. *)
Fixpoint strip_prefix_ci (p s : string) : option (string * string) :=
  match p with
  | EmptyString => Some (EmptyString, s)
  | String a p' =>
      match s with
      | String b s' =>
          if eqb_ci a b then
            match strip_prefix_ci p' s' with
            | Some (m, r) => Some (String b m, r)
            | None => None
            end
          else None
      | EmptyString => None
      end
  end.

(** [needle in haystack]. *)
Fixpoint contains (needle hay : string) : bool :=
  match strip_prefix needle hay with
  | Some _ => true
  | None =>
      match hay with
      | String _ hay' => contains needle hay'
      | EmptyString => false
      end
  end.

Fixpoint contains_ci (needle hay : string) : bool :=
  match strip_prefix_ci needle hay with
  | Some _ => true
  | None =>
      match hay with
      | String _ hay' => contains_ci needle hay'
      | EmptyString => false
      end
  end.

(** Longest run of decimal digits at the head of [s], and the rest. *)
Fixpoint span_digits (s : string) : string * string :=
  match s with
  | String c s' =>
      if is_digit c then
        let '(d, r) := span_digits s' in (String c d, r)
      else (EmptyString, s)
  | EmptyString => (EmptyString, EmptyString)
  end.


Fixpoint to_lower (s : string) : string :=
  match s with
  | String c s' => String (lower c) (to_lower s')
  | EmptyString => EmptyString
  end.

Fixpoint mem (c : ascii) (s : string) : bool :=
  match s with
  | String d s' => Ascii.eqb c d || mem c s'
  | EmptyString => false
  end.

Fixpoint drop_while (p : ascii → bool) (s : string) : string :=
  match s with
  | String c s' => if p c then drop_while p s' else s
  | EmptyString => EmptyString
  end.

(** [s] without the run of [p] characters at its end. *)
Fixpoint drop_while_end (p : ascii → bool) (s : string) : string :=
  match s with
  | String c s' =>
      match drop_while_end p s' with
      | EmptyString => if p c then EmptyString else String c EmptyString
      | t => String c t
      end
  | EmptyString => EmptyString
  end.

Definition strip (s : string) : string :=
  drop_while_end is_space (drop_while is_space s).

(** [s.endswith(suffix)]. *)
Fixpoint ends_with (suffix s : string) : bool :=
  String.eqb suffix s ||
  match s with
  | String _ s' => ends_with suffix s'
  | EmptyString => false
  end.

End Text.

(** ** Outcomes of a Python call *)

Inductive exn : Type :=
  | TypeError
  | ValueError
  | IndexError
  | URLError
  | IOError.

(** A call returns a value, leaves through [sys.exit], leaves through an
    uncaught exception, or is still running when the fuel of a [while]
    loop is spent. *)
Inductive outcome (A : Type) : Type :=
  | Ok (a : A)
  | Exit
  | Raise (e : exn)
  | Running.

Arguments Ok {A} a.
Arguments Exit {A}.
Arguments Raise {A} e.
Arguments Running {A}.

#[global] Instance outcome_ret : MRet outcome := λ A a, Ok a.

#[global] Instance outcome_bind : MBind outcome := λ A B f o,
  match o with
  | Ok a => f a
  | Exit => Exit
  | Raise e => Raise e
  | Running => Running
  end.

(** ** Python values that change type in [find_resolution] *)

(** [res_x] and [res_y] start as the integer [0] and are overwritten with
    the text of a regex group. *)
Inductive pyval : Type :=
  | PInt (z : Z)
  | PStr (s : string).

(** [v == 0]: a string never equals an integer. *)
Definition py_eq_zero (v : pyval) : bool :=
  match v with
  | PInt z => z =? 0
  | PStr _ => false
  end.

Module PyInt.

(** Digits of a numeral after the sign; single underscores may separate
    digits. [seen] tells that the previous character was a digit. *)
Fixpoint digits (acc : Z) (seen : bool) (s : string) : option Z :=
  match s with
  | EmptyString => if seen then Some acc else None
  | String c s' =>
      if Text.is_digit c then digits (10 * acc + Text.digit_val c) true s'
      else if Ascii.eqb c "_"%char && seen then digits acc false s'
      else None
  end.

(** [int(s)] for a byte string: [None] stands for [ValueError]. *)
Definition of_string (s : string) : option Z :=
  match Text.strip s with
  | String c s' =>
      if Ascii.eqb c "-"%char then Z.opp <$> digits 0 false s'
      else if Ascii.eqb c "+"%char then digits 0 false s'
      else digits 0 false (String c s')
  | EmptyString => None
  end.

(** [int(v)]. *)
Definition int (v : pyval) : outcome Z :=
  match v with
  | PInt z => Ok z
  | PStr s =>
      match of_string s with
      | Some z => Ok z
      | None => Raise ValueError
      end
  end.

End PyInt.

(** ** The three regular expressions *)

Module Regex.

(** *** [" connected ([0-9]+)x([0-9]+)+"]

    After the literal, the first group takes every digit that follows
    (giving one back cannot help: the next character would have to be
    [x] and is a digit); the second group does the same, and the outer
    [+] cannot iterate again, so it holds the whole second run. *)
Definition match_connected (s : string) : option (string * string * string) :=
  match Text.strip_prefix " connected " s with
  | None => None
  | Some r =>
      let '(g1, r1) := Text.span_digits r in
      match g1, r1 with
      | String _ _, String c r2 =>
          if Ascii.eqb c "x"%char then
            let '(g2, r3) := Text.span_digits r2 in
            match g2 with
            | String _ _ => Some (g1, g2, r3)
            | EmptyString => None
            end
          else None
      | _, _ => None
      end
  end.

(** [re.finditer]: the matches from left to right, none overlapping; the
    search resumes where the previous match ended. [skip] counts the
    characters of the last match still to pass over. *)
Fixpoint finditer_connected_from (skip : nat) (s : string)
  : list (string * string) :=
  match skip, s with
  | S k, String _ s' => finditer_connected_from k s'
  | S _, EmptyString => []
  | O, EmptyString => []
  | O, String _ s' =>
      match match_connected s with
      | Some (g1, g2, r) =>
          (g1, g2)
            :: finditer_connected_from (String.length s' - String.length r) s'
      | None => finditer_connected_from O s'
      end
  end.

Definition finditer_connected (output : string) : list (string * string) :=
  finditer_connected_from O output.

(** *** [".* current (.*?) x (.*?),.*"]

    The functions follow the backtracking order. [.] is any character
    but a newline. *)

(** [(.*?),.*] : the shortest second group, up to the first comma of the
    line; the final [.*] always succeeds. *)
Fixpoint current_group2 (s : string) : option string :=
  match s with
  | EmptyString => None
  | String c s' =>
      if Ascii.eqb c ","%char then Some EmptyString
      else if Text.is_newline c then None
      else String c <$> current_group2 s'
  end.

(** [(.*?) x (.*?),.*] : the first group grows one character at a time
    until what follows is [" x "] and the rest matches. *)
Fixpoint current_group1 (s : string) : option (string * string) :=
  let here :=
    match Text.strip_prefix " x " s with
    | Some r => (λ g2, (EmptyString, g2)) <$> current_group2 r
    | None => None
    end in
  match here with
  | Some r => Some r
  | None =>
      match s with
      | EmptyString => None
      | String c s' =>
          if Text.is_newline c then None
          else (λ '(g1, g2), (String c g1, g2)) <$> current_group1 s'
      end
  end.

Definition current_here (s : string) : option (string * string) :=
  match Text.strip_prefix " current " s with
  | Some r => current_group1 r
  | None => None
  end.

(** The whole pattern tried at the head of [s]: the leading [.*] is
    greedy, so the longest skip that lets the rest match wins. *)
Fixpoint match_current (s : string) : option (string * string) :=
  match s with
  | EmptyString => current_here s
  | String c s' =>
      if Text.is_newline c then current_here s
      else
        match match_current s' with
        | Some r => Some r
        | None => current_here s
        end
  end.

(** [re.search]: the first start position at which the pattern matches. *)
Fixpoint search_current (output : string) : option (string * string) :=
  match match_current output with
  | Some r => Some r
  | None =>
      match output with
      | EmptyString => None
      | String _ s' => search_current s'
      end
  end.

(** *** ["<" + element + '="(image.*?)"'] with [re.IGNORECASE]

    [element] is one of ["a href"] and ["img src"], text without
    metacharacters, matched literally. The group is [image] as the
    document spells it, followed by the shortest text that ends before
    a double quote on the same line. *)
Fixpoint until_dquote (s : string) : option string :=
  match s with
  | EmptyString => None
  | String c s' =>
      if Ascii.eqb c Text.dquote then Some EmptyString
      else if Text.is_newline c then None
      else String c <$> until_dquote s'
  end.

Definition match_image (element : string) (s : string) : option string :=
  match Text.strip_prefix_ci ("<" +:+ element +:+ "=" +:+ String Text.dquote EmptyString) s with
  | None => None
  | Some (_, r) =>
      match Text.strip_prefix_ci "image" r with
      | None => None
      | Some (img, r') => (λ t, img +:+ t) <$> until_dquote r'
      end
  end.

Fixpoint search_image (element : string) (text : string) : option string :=
  match match_image element text with
  | Some g => Some g
  | None =>
      match text with
      | EmptyString => None
      | String _ text' => search_image element text'
      end
  end.

End Regex.


(** ** Resolution *)

Inductive ResolutionTypes : Type :=
  | stretch
  | largest
  | default.

(** The loop of [find_resolution] over the matches. The variable
    [largest] is assigned once, before the loop, and only read after. *)
Fixpoint largest_loop (largest : Z) (matches : list (string * string))
    (res : pyval * pyval) : outcome (pyval * pyval) :=
  match matches with
  | [] => Ok res
  | (g1, g2) :: rest =>
      w ← PyInt.int (PStr g1);
      h ← PyInt.int (PStr g2);
      if largest <? w * h
      then largest_loop largest rest (PStr g1, PStr g2)
      else largest_loop largest rest res
  end.

(** [output] is what the [xrandr | grep] pipeline printed; it is read
    only when [res_type] is not [default]. *)
Definition find_resolution (res_type : ResolutionTypes) (x y : Z)
    (output : string) : outcome (Z * Z) :=
  match res_type with
  | default => Ok (x, y)
  | _ =>
      '(res_x, res_y) ←
        match res_type with
        | largest =>
            largest_loop 0 (Regex.finditer_connected output) (PInt 0, PInt 0)
        | _ =>
            match Regex.search_current output with
            | Some (g1, g2) => Ok (PStr g1, PStr g2)
            | None => Ok (PInt 0, PInt 0)
            end
        end;
      let '(res_x, res_y) :=
        if py_eq_zero res_x || py_eq_zero res_y
        then (PInt x, PInt y) else (res_x, res_y) in
      w ← PyInt.int res_x;
      h ← PyInt.int res_y;
      Ok (w, h)
  end.

(** ** Paths *)

Module OsPath.

Definition slash : ascii := "/"%char.
Definition dot : ascii := "."%char.

(** [os.path.basename]: what follows the last slash. *)
Fixpoint basename (p : string) : string :=
  match p with
  | EmptyString => EmptyString
  | String c p' =>
      if Text.mem slash p' then basename p'
      else if Ascii.eqb c slash then p' else p
  end.

(** [p.rfind(c)], [-1] when [c] does not occur; [i] is the index of the
    head of [p]. *)
Fixpoint rfind_from (c : ascii) (i : Z) (last : Z) (p : string) : Z :=
  match p with
  | EmptyString => last
  | String d p' => rfind_from c (i + 1) (if Ascii.eqb c d then i else last) p'
  end.

Definition rfind (c : ascii) (p : string) : Z := rfind_from c 0 (-1) p.

Fixpoint all_dots (s : string) : bool :=
  match s with
  | EmptyString => true
  | String c s' => Ascii.eqb c dot && all_dots s'
  end.

(** [os.path.splitext(p)[0]]: cut at the last dot, when it comes after
    the last slash and after a character of the name that is no dot. *)
Definition splitext_root (p : string) : string :=
  let sepIndex := rfind slash p in
  let dotIndex := rfind dot p in
  if sepIndex <? dotIndex then
    let lead :=
      String.substring (Z.to_nat (sepIndex + 1))
        (Z.to_nat (dotIndex - (sepIndex + 1))) p in
    if all_dots lead then p
    else String.substring 0 (Z.to_nat dotIndex) p
  else p.

Definition ends_with_slash (a : string) : bool := Text.ends_with "/" a.

(** [os.path.join(a, b)]. *)
Definition join (a b : string) : string :=
  match b with
  | String c _ =>
      if Ascii.eqb c slash then b
      else if ends_with_slash a then a +:+ b
      else match a with
           | EmptyString => b
           | _ => a +:+ "/" +:+ b
           end
  | EmptyString =>
      if ends_with_slash a then a
      else match a with
           | EmptyString => EmptyString
           | _ => a +:+ "/"
           end
  end.

End OsPath.

(** ** The world outside the program *)

(** The tree [lxml.etree] builds. *)
#[warnings="-register-all"]
Inductive xml : Type :=
  | Element (tag : string) (text : option string) (children : list xml).

(** What a file holds, as far as the program can tell. *)
Inductive content : Type :=
  | Image (width height : Z)
  | Document (root : xml)
  | Bytes.

(** Externally visible actions, in the order they happen. *)
Inductive event : Type :=
  | SiteGet (url : string)
  | UrlOpen (url : string)
  | UrlRetrieve (url path : string)
  | Resized (path : string) (x y : Z)
  | WroteXml (path : string)
  | MadeDirs (path : string)
  | SetWallpaper (path : string).

Record world : Type := World {
  files : gmap string content;
  trace : list event
}.

(** The answer of [opener.open(req)] followed by [response.read()]. *)
Inductive site_reply : Type :=
  | Body (reply : string)
  | HTTPError (code : Z)
  | Unreachable.

(** The answer of [urllib.urlopen(url)]: the [content-length] header,
    when the server sends one, as the number it spells. *)
Inductive probe_reply : Type :=
  | Headers (content_length : option Z)
  | NoConnection.

Record env : Type := Env {
  display_query : string → string;
  site : string → site_reply;
  probe : string → probe_reply;
  payload : string → content;
  downloads_dir : option string;
  home_of : string → string;
  is_dir : string → bool;
  yymmdd_back : Z → string;
  shuffled : list string → list string
}.

(** ** The monad of the effectful functions *)

Definition M (A : Type) : Type := world → outcome A * world.

#[global] Instance M_ret : MRet M := λ A a w, (Ok a, w).

#[global] Instance M_bind : MBind M := λ A B f m w,
  match m w with
  | (Ok a, w') => f a w'
  | (Exit, w') => (Exit, w')
  | (Raise e, w') => (Raise e, w')
  | (Running, w') => (Running, w')
  end.

Definition lift {A} (o : outcome A) : M A := λ w, (o, w).
Definition sys_exit {A} : M A := lift Exit.
Definition raise {A} (e : exn) : M A := lift (Raise e).
Definition emit (e : event) : M () :=
  λ w, (Ok (), World (files w) (trace w ++ [e])).
Definition isfile (path : string) : M bool :=
  λ w, (Ok (bool_decide (is_Some (files w !! path))), w).
Definition store (path : string) (c : content) : M () :=
  λ w, (Ok (), World (<[path := c]> (files w)) (trace w)).
Definition load (path : string) : M (option content) :=
  λ w, (Ok (files w !! path), w).

Section Program.

Variable E : env.

(** *** [download_site]

    Only [urllib2.HTTPError] is caught. *)
Definition download_site (url : string) (SHOW_DEBUG : bool) : M string :=
  _ ← emit (SiteGet url);
  match site E url with
  | Body reply => mret reply
  | HTTPError code => mret ("Error: " +:+ pretty code)
  | Unreachable => raise URLError
  end.

(** *** [get_image_info]

    [None] stands for the triple [None, None, None]. The size is
    [float] of the header text: [float(None)] is a [TypeError]. *)
Definition get_image_info (element text NASA_APOD_SITE : string)
    (SHOW_DEBUG : bool) : M (option (string * string * Z)) :=
  match Regex.search_image element text with
  | Some group1 =>
      let file_url :=
        if Text.contains "http" group1 then group1
        else NASA_APOD_SITE +:+ group1 in
      _ ← emit (UrlOpen file_url);
      match probe E file_url with
      | NoConnection => raise IOError
      | Headers content_length =>
          let filename := OsPath.basename file_url in
          match content_length with
          | Some file_size => mret (Some (file_url, filename, file_size))
          | None => raise TypeError
          end
      end
  | None => mret None
  end.

(** [urllib.urlretrieve(url, path)]. *)
Definition urlretrieve (url path : string) : M () :=
  _ ← emit (UrlRetrieve url path);
  match probe E url with
  | NoConnection => raise IOError
  | Headers _ => store path (payload E url)
  end.

(** *** [get_image]

    [None] is Python's [None]. [save_to] is computed once, from the
    name the anchor strategy found, and is not recomputed after the
    second strategy. *)
Definition get_image (text DOWNLOAD_PATH NASA_APOD_SITE : string)
    (SHOW_DEBUG : bool) : M (option string) :=
  info ← get_image_info "a href" text NASA_APOD_SITE SHOW_DEBUG;
  match info with
  | None => mret None
  | Some (file_url, filename, file_size) =>
      let save_to :=
        OsPath.join DOWNLOAD_PATH (OsPath.splitext_root filename +:+ ".png") in
      present ← isfile save_to;
      if negb present then
        if file_size <? 500 then
          info' ← get_image_info "img src" text NASA_APOD_SITE SHOW_DEBUG;
          match info' with
          | None => mret None
          | Some (file_url, filename, file_size) =>
              if file_size <? 500 then sys_exit
              else
                _ ← urlretrieve file_url save_to;
                mret (Some save_to)
          end
        else
          _ ← urlretrieve file_url save_to;
          mret (Some save_to)
      else mret (Some save_to)
  end.

(** A call site of [get_image]: an argument the call does not pass is
    [None] here. [text], [DOWNLOAD_PATH] and [NASA_APOD_SITE] have no
    default, so binding fails with [TypeError] when one is missing;
    [SHOW_DEBUG] defaults to [False]. *)
Definition call_get_image (text DOWNLOAD_PATH NASA_APOD_SITE : option string)
    (SHOW_DEBUG : option bool) : M (option string) :=
  match text, DOWNLOAD_PATH, NASA_APOD_SITE with
  | Some text, Some DOWNLOAD_PATH, Some NASA_APOD_SITE =>
      get_image text DOWNLOAD_PATH NASA_APOD_SITE
        (match SHOW_DEBUG with Some b => b | None => false end)
  | _, _, _ => raise TypeError
  end.

(** *** [resize_image] *)
Definition resize_image (filename : string) (RESOLUTION_X RESOLUTION_Y : Z)
    (SHOW_DEBUG : bool) : M () :=
  image ← load filename;
  match image with
  | Some (Image current_x current_y) =>
      if (current_x =? RESOLUTION_X) && (current_y =? RESOLUTION_Y)
      then mret ()
      else
        _ ← emit (Resized filename RESOLUTION_X RESOLUTION_Y);
        store filename (Image RESOLUTION_X RESOLUTION_Y)
  | _ => raise IOError
  end.

(** *** [set_gnome_wallpaper] *)
Definition set_gnome_wallpaper (file_path : string) (SHOW_DEBUG : bool)
  : M () :=
  emit (SetWallpaper file_path).

(** *** [set_download_folder] *)
Definition set_download_folder (CUSTOM_FOLDER DOWNLOAD_PATH : string)
    (SHOW_DEBUG : bool) : string :=
  match downloads_dir E with
  | Some (String c dir) => OsPath.join (String c dir) CUSTOM_FOLDER
  | _ => DOWNLOAD_PATH
  end.

(** *** The playlist of [create_desktop_background_scoll] *)

Definition leaf (tag text : string) : xml := Element tag (Some text) [].

(** [images[i]]. *)
Definition item (images : list string) (i : nat) : outcome string :=
  match images !! i with
  | Some image => Ok image
  | None => Raise IndexError
  end.

(** The body of the [for] loop at index [i]: the [static] and the
    [transition] element it appends to [background]. *)
Definition slide_elements (IMAGE_DURATION : Z) (images : list string)
    (num_images i : nat) : outcome (list xml) :=
  static_file ← item images i;
  transition_from ← item images i;
  transition_to ←
    (if (i + 1 =? num_images)%nat then item images 0
     else item images (i + 1));
  Ok [ Element "static" None
         [leaf "duration" (pretty IMAGE_DURATION); leaf "file" static_file];
       Element "transition" None
         [leaf "duration" "5"; leaf "from" transition_from;
          leaf "to" transition_to] ].

(** [for i, image in enumerate(images)]: [todo] is what is left to
    enumerate, [i] the index of its head. *)
Fixpoint playlist_loop (IMAGE_DURATION : Z) (images : list string)
    (num_images i : nat) (todo : list string) (background : list xml)
  : outcome (list xml) :=
  match todo with
  | [] => Ok background
  | _ :: todo' =>
      slide ← slide_elements IMAGE_DURATION images num_images i;
      playlist_loop IMAGE_DURATION images num_images (S i) todo'
        (background ++ slide)
  end.

(** The [background] element for the (shuffled) list [images]. *)
Definition build_background (IMAGE_DURATION : Z) (images : list string)
  : outcome xml :=
  children ←
    playlist_loop IMAGE_DURATION images (length images) 0 images [];
  Ok (Element "background" None children).

(** *** [glob.glob(DOWNLOAD_PATH + "/*.png")]

    Paths are compared as written. A name matches when it lies directly
    in the directory, ends in [.png] and does not begin with a dot. *)
Definition is_png_in (DOWNLOAD_PATH path : string) : bool :=
  match Text.strip_prefix (DOWNLOAD_PATH +:+ "/") path with
  | Some name =>
      negb (Text.mem OsPath.slash name)
      && Text.ends_with ".png" name
      && negb (match name with
               | String c _ => Ascii.eqb c OsPath.dot
               | EmptyString => true
               end)
  | None => false
  end.

Definition glob_png (DOWNLOAD_PATH : string) : M (list string) :=
  λ w, (Ok (List.filter (is_png_in DOWNLOAD_PATH)
              (map fst (map_to_list (files w)))), w).

(** *** The seeding loop of [create_desktop_background_scoll]

    [while seed_images_left > 0]. Each unit of [fuel] pays for one
    iteration. The call [get_image(seed_site_contents)] passes one
    argument. *)
Fixpoint seed_loop (fuel : nat) (NASA_APOD_SITE : string)
    (RESOLUTION_X RESOLUTION_Y : Z) (SHOW_DEBUG : bool)
    (days_back seed_images_left : Z) (images : list string)
  : M (list string) :=
  if 0 <? seed_images_left then
    match fuel with
    | O => lift Running
    | S fuel' =>
        let days_back := days_back + 1 in
        let seed_filename :=
          NASA_APOD_SITE +:+ "ap" +:+ yymmdd_back E days_back +:+ ".html" in
        seed_site_contents ← download_site seed_filename SHOW_DEBUG;
        if String.eqb seed_site_contents "error" then
          seed_loop fuel' NASA_APOD_SITE RESOLUTION_X RESOLUTION_Y SHOW_DEBUG
            days_back seed_images_left images
        else
          seed_filename ←
            call_get_image (Some seed_site_contents) None None None;
          match seed_filename with
          | None =>
              seed_loop fuel' NASA_APOD_SITE RESOLUTION_X RESOLUTION_Y
                SHOW_DEBUG days_back seed_images_left images
          | Some seed_filename =>
              _ ← resize_image seed_filename RESOLUTION_X RESOLUTION_Y
                    SHOW_DEBUG;
              seed_loop fuel' NASA_APOD_SITE RESOLUTION_X RESOLUTION_Y
                SHOW_DEBUG days_back (seed_images_left - 1)
                (images ++ [seed_filename])
          end
    end
  else mret images.

(** *** [create_desktop_background_scoll] *)
Definition create_desktop_background_scoll (fuel : nat)
    (filename : option string) (IMAGE_SCROLL : bool) (IMAGE_DURATION : Z)
    (DOWNLOAD_PATH : string) (SEED_IMAGES : Z) (NASA_APOD_SITE : string)
    (RESOLUTION_X RESOLUTION_Y : Z) (SHOW_DEBUG : bool)
  : M (option string) :=
  if negb IMAGE_SCROLL then mret filename
  else
    let filename := DOWNLOAD_PATH +:+ "/nasa_apod_desktop_backgrounds.xml" in
    images ← glob_png DOWNLOAD_PATH;
    let num_images := Z.of_nat (length images) in
    images ←
      (if num_images <? SEED_IMAGES then
         seed_loop fuel NASA_APOD_SITE RESOLUTION_X RESOLUTION_Y SHOW_DEBUG
           0 SEED_IMAGES images
       else mret images);
    let images := shuffled E images in
    background ← lift (build_background IMAGE_DURATION images);
    _ ← emit (WroteXml filename);
    _ ← store filename (Document background);
    mret (Some filename).

(** *** [main] *)

Record NASAADConfig : Type := Config {
  DOWNLOAD_PATH : string;
  CUSTOM_FOLDER : string;
  RESOLUTION_TYPE : ResolutionTypes;
  RESOLUTION_X : Z;
  RESOLUTION_Y : Z;
  NASA_APOD_SITE : string;
  IMAGE_SCROLL : bool;
  IMAGE_DURATION : Z;
  SEED_IMAGES : Z;
  SHOW_DEBUG : bool
}.

Definition regex_search (res_type : ResolutionTypes) : string :=
  match res_type with
  | largest => "connected"
  | _ => "current"
  end.

Definition main (fuel : nat) (opts : NASAADConfig) : M () :=
  '(res_x, res_y) ←
    lift (find_resolution (RESOLUTION_TYPE opts) (RESOLUTION_X opts)
            (RESOLUTION_Y opts)
            (display_query E (regex_search (RESOLUTION_TYPE opts))));
  let download_path :=
    set_download_folder (CUSTOM_FOLDER opts) (DOWNLOAD_PATH opts)
      (SHOW_DEBUG opts) in
  _ ← (if negb (is_dir E (home_of E download_path))
       then emit (MadeDirs (home_of E download_path)) else mret ());
  site_contents ← download_site (NASA_APOD_SITE opts) (SHOW_DEBUG opts);
  if String.eqb site_contents "error" then sys_exit
  else
    filename ←
      call_get_image (Some site_contents) (Some download_path)
        (Some (NASA_APOD_SITE opts)) (Some (SHOW_DEBUG opts));
    _ ← match filename with
        | Some filename =>
            resize_image filename res_x res_y (SHOW_DEBUG opts)
        | None => mret ()
        end;
    filename ←
      create_desktop_background_scoll fuel filename (IMAGE_SCROLL opts)
        (IMAGE_DURATION opts) download_path (SEED_IMAGES opts)
        (NASA_APOD_SITE opts) res_x res_y (SHOW_DEBUG opts);
    match filename with
    | None => sys_exit
    | Some filename => set_gnome_wallpaper filename false
    end.

End Program.

(** ** Vocabulary of the statements *)

(** *** Resolution *)



(** *** Reading a playlist back *)



(** The [from] and the [to] of a [transition] element. *)
Definition transition_of (e : xml) : option (string * string) :=
  match e with
  | Element tag _ [_; Element _ (Some from) _; Element _ (Some to) _] =>
      if String.eqb tag "transition" then Some (from, to) else None
  | _ => None
  end.


(** The [to] of the first transition that leaves [image]. *)
Fixpoint transition_to (children : list xml) (image : string)
  : option string :=
  match children with
  | [] => None
  | e :: rest =>
      match transition_of e with
      | Some (from, to) =>
          if String.eqb from image then Some to
          else transition_to rest image
      | None => transition_to rest image
      end
  end.


(** The two elements of slide [i], with the wrap-around written as a
    remainder. *)
Definition slide_at (IMAGE_DURATION : Z) (images : list string) (i : nat)
  : list xml :=
  [ Element "static" None
      [leaf "duration" (pretty IMAGE_DURATION); leaf "file" (images !!! i)];
    Element "transition" None
      [leaf "duration" "5"; leaf "from" (images !!! i);
       leaf "to" (images !!! ((i + 1) mod length images)%nat)] ].

(** *** The image pattern, declaratively *)

Definition image_tag (element : string) : string :=
  "<" +:+ element +:+ "=" +:+ String Text.dquote EmptyString.

(** [s] begins with an occurrence of the pattern whose group is [g]:
    the tag in any case, a path that starts with [image] in any case and
    runs to the next double quote without leaving the line. *)
Definition begins_with_image (element s g : string) : Prop :=
  ∃ tag img rest post,
    s = tag +:+ img +:+ rest +:+ String Text.dquote post
    ∧ Text.to_lower tag = Text.to_lower (image_tag element)
    ∧ Text.to_lower img = "image"
    ∧ Text.mem Text.dquote rest = false
    ∧ Text.mem Text.newline rest = false
    ∧ g = img +:+ rest.

(** *** Acquisition *)

(** The URL [get_image_info] forms from the group of the match. *)
Definition image_url (NASA_APOD_SITE group1 : string) : string :=
  if Text.contains "http" group1 then group1 else NASA_APOD_SITE +:+ group1.

(** The [save_to] of [get_image] for the URL of the anchor strategy. *)
Definition save_path (DOWNLOAD_PATH file_url : string) : string :=
  OsPath.join DOWNLOAD_PATH
    (OsPath.splitext_root (OsPath.basename file_url) +:+ ".png").

(** The world after one more action. *)
Definition logged (w : world) (e : event) : world :=
  World (files w) (trace w ++ [e]).

(** The world after [urlretrieve(url, path)] went through. *)
Definition retrieved (E : env) (w : world) (url path : string) : world :=
  World (<[path := payload E url]> (files w))
        (trace w ++ [UrlRetrieve url path]).





(** ** Concrete inputs *)

Module Examples.

Definition q : string := String Text.dquote EmptyString.
Definition nl : string := String Text.newline EmptyString.
Definition apod : string := "http://apod.nasa.gov/apod/".
Definition dir : string := "/tmp/backgrounds".

Definition anchor (path : string) : string :=
  "<a href=" +:+ q +:+ path +:+ q +:+ ">".

Definition img (path : string) : string :=
  "<IMG SRC=" +:+ q +:+ path +:+ q +:+ ">".



(** A page of the day with an image, one with a video. *)
Definition image_page (name : string) : string :=
  "<html><body>" +:+ nl +:+ anchor ("image/1201/" +:+ name +:+ ".jpg")
  +:+ nl +:+ img ("image/1201/" +:+ name +:+ "_small.jpg") +:+ nl
  +:+ "</body></html>".

Definition video_page : string :=
  "<html><body>" +:+ nl +:+ "<iframe src=" +:+ q
  +:+ "http://www.youtube.com/embed/abc" +:+ q +:+ "></iframe>" +:+ nl
  +:+ "</body></html>".

(** A page whose anchor path has [image] in the middle, and one whose
    relative path has [http] in it. *)
Definition nested_page : string := anchor "apod/image/1201/big.jpg".
Definition http_page : string := anchor "image/http_logo.jpg".

(** Today is 10 January 2012. *)
Definition calendar (days_back : Z) : string :=
  if days_back =? 1 then "120109"
  else if days_back =? 2 then "120108"
  else if days_back =? 3 then "120107"
  else if days_back =? 4 then "120106"
  else if days_back =? 5 then "120105"
  else "111231".

Definition env_of (site : string → site_reply)
    (probe : string → probe_reply) : env :=
  {| display_query := λ _, EmptyString;
     site := site;
     probe := probe;
     payload := λ _, Image 800 600;
     downloads_dir := None;
     home_of := λ path, path;
     is_dir := λ _, true;
     yymmdd_back := calendar;
     shuffled := λ images, images |}.

Definition day_url (yymmdd : string) : string :=
  apod +:+ "ap" +:+ yymmdd +:+ ".html".

(** Today's page has an image; every image is 90000 bytes. *)
Definition plain : env :=
  env_of (λ url, if String.eqb url apod then Body (image_page "big")
                 else HTTPError 404)
         (λ _, Headers (Some 90000)).


(** The two days before today show a video, the three before an image. *)
Definition seeding : env :=
  env_of (λ url,
            if String.eqb url apod then Body (image_page "big")
            else if String.eqb url (day_url "120109") then Body video_page
            else if String.eqb url (day_url "120108") then Body video_page
            else if String.eqb url (day_url "120107")
            then Body (image_page "seven")
            else if String.eqb url (day_url "120106")
            then Body (image_page "six")
            else if String.eqb url (day_url "120105")
            then Body (image_page "five")
            else HTTPError 404)
         (λ _, Headers (Some 90000)).

(** The site answers every page with status 404. *)
Definition missing : env :=
  env_of (λ _, HTTPError 404) (λ _, Headers (Some 90000)).

(** The site cannot be reached. *)
Definition offline : env :=
  env_of (λ _, Unreachable) (λ _, NoConnection).

Definition empty_dir : world := World ∅ [].

Definition one_image : world :=
  World {[ dir +:+ "/big.png" := Image 1920 1080 ]} [].

Definition two_images : world :=
  World {[ dir +:+ "/a.png" := Image 1920 1080;
           dir +:+ "/b.png" := Image 1920 1080 ]} [].

Definition three_images : world :=
  World {[ dir +:+ "/a.png" := Image 1920 1080;
           dir +:+ "/b.png" := Image 1920 1080;
           dir +:+ "/c.png" := Image 1920 1080 ]} [].

Definition opts (seed_images : Z) : NASAADConfig :=
  {| DOWNLOAD_PATH := dir;
     CUSTOM_FOLDER := "nasa-apod-backgrounds";
     RESOLUTION_TYPE := default;
     RESOLUTION_X := 1920;
     RESOLUTION_Y := 1080;
     NASA_APOD_SITE := apod;
     IMAGE_SCROLL := true;
     IMAGE_DURATION := 1200;
     SEED_IMAGES := seed_images;
     SHOW_DEBUG := false |}.

End Examples.

(** What a run leaves to observe: the outcome, the files, the trace. *)
Definition observe {A} (r : outcome A * world)
  : outcome A * list (string * content) * list event :=
  (r.1, map_to_list (files r.2), trace r.2).

(** ** Vocabulary of whole runs *)

Definition is_image (c : content) : bool :=
  match c with Image _ _ => true | _ => false end.

Definition is_wallpaper (e : event) : bool :=
  match e with SetWallpaper _ => true | _ => false end.

Definition is_site_get (e : event) : bool :=
  match e with SiteGet _ => true | _ => false end.

(** [m] adds to the trace only, and never sets the wallpaper. *)
Definition quiet {A} (m : M A) : Prop :=
  ∀ w, ∃ t, trace (m w).2 = trace w ++ t
    ∧ Forall (λ e, is_wallpaper e = false) t.

(** [m] adds to the trace only, and sets the wallpaper exactly when it
    returns, as its last action. *)
Definition wallpaper_last (m : M ()) : Prop :=
  ∀ w, ∃ t, trace (m w).2 = trace w ++ t
    ∧ match (m w).1 with
      | Ok _ =>
          ∃ t' path, t = t' ++ [SetWallpaper path]
            ∧ Forall (λ e, is_wallpaper e = false) t'
      | _ => Forall (λ e, is_wallpaper e = false) t
      end.

(** The resolution [main] works with. *)
Definition resolution (E : env) (opts : NASAADConfig) : outcome (Z * Z) :=
  find_resolution (RESOLUTION_TYPE opts) (RESOLUTION_X opts)
    (RESOLUTION_Y opts)
    (display_query E (regex_search (RESOLUTION_TYPE opts))).

(** The world [main] has reached when it looks at the page of the day:
    the download directory is there and the page has been asked for. *)
Definition fetched (E : env) (opts : NASAADConfig) (w : world) : world :=
  let download_path :=
    set_download_folder E (CUSTOM_FOLDER opts) (DOWNLOAD_PATH opts)
      (SHOW_DEBUG opts) in
  World (files w)
    ((trace w
      ++ (if is_dir E (home_of E download_path) then []
          else [MadeDirs (home_of E download_path)]))
     ++ [SiteGet (NASA_APOD_SITE opts)]).


(** What [glob.glob] lists in the world [w]. *)
Definition images_in (DOWNLOAD_PATH : string) (w : world) : list string :=
  List.filter (is_png_in DOWNLOAD_PATH) (map fst (map_to_list (files w))).

(** The file the playlist is written to. *)
Definition playlist_path (DOWNLOAD_PATH : string) : string :=
  DOWNLOAD_PATH +:+ "/nasa_apod_desktop_backgrounds.xml".

(** ** More concrete inputs *)

Module Cases.

(** The options of [Examples.opts] for the page [site], without the
    playlist. *)
Definition still (site : string) : NASAADConfig :=
  {| DOWNLOAD_PATH := Examples.dir;
     CUSTOM_FOLDER := "nasa-apod-backgrounds";
     RESOLUTION_TYPE := default;
     RESOLUTION_X := 1920;
     RESOLUTION_Y := 1080;
     NASA_APOD_SITE := site;
     IMAGE_SCROLL := false;
     IMAGE_DURATION := 1200;
     SEED_IMAGES := 10;
     SHOW_DEBUG := false |}.


(** A site that answers the request for an image with something that
    is no image. *)
Definition broken : env :=
  {| display_query := λ _, EmptyString;
     site := λ _, Body (Examples.image_page "big");
     probe := λ _, Headers (Some 90000);
     payload := λ _, Bytes;
     downloads_dir := None;
     home_of := λ path, path;
     is_dir := λ _, true;
     yymmdd_back := Examples.calendar;
     shuffled := λ images, images |}.




End Cases.

(** ** Proof steps for the monad *)

Create HintDb quiet.

(** One step through a computation of [M], for a predicate that is
    closed under bind by the lemma [closed]. *)
Ltac monad_step closed :=
  lazymatch goal with
  | |- _ (_ ≫= _) => apply closed; [|intros ?]
  | |- _ (match ?x with _ => _ end) => destruct x
  | |- _ (if ?b then _ else _) => destruct b
  | |- _ => solve [eauto with quiet]
  end.

(** * Properties *)

(** ** Numerals *)






(** ** The matches of the display query *)




(** ** The resolution *)









(** ** The playlist *)

Lemma slide_elements_at D (images : list string) i :
  (i < length images)%nat →
  slide_elements D images (length images) i = Ok (slide_at D images i).
Proof.
  intros Hi. unfold slide_elements, slide_at, item.
  rewrite (list_lookup_lookup_total_lt images i Hi). simpl.
  destruct (i + 1 =? length images)%nat eqn:Heq.
  - apply Nat.eqb_eq in Heq. rewrite Heq, Nat.Div0.mod_same.
    rewrite (list_lookup_lookup_total_lt images 0) by lia. done.
  - apply Nat.eqb_neq in Heq.
    rewrite (list_lookup_lookup_total_lt images (i + 1)) by lia.
    rewrite Nat.mod_small by lia. done.
Qed.

Lemma playlist_loop_spec D (images : list string) : ∀ todo i background,
  (i + length todo = length images)%nat →
  playlist_loop D images (length images) i todo background
  = Ok (background ++ flat_map (slide_at D images) (seq i (length todo))).
Proof.
  induction todo as [|t todo IH]; intros i bg Hlen; simpl.
  - by rewrite app_nil_r.
  - simpl in Hlen. rewrite slide_elements_at by lia. simpl.
    rewrite IH by lia. by rewrite <- app_assoc.
Qed.

Lemma build_background_spec D (images : list string) :
  build_background D images
  = Ok (Element "background" None
          (flat_map (slide_at D images) (seq 0 (length images)))).
Proof.
  unfold build_background. by rewrite playlist_loop_spec.
Qed.














(** ** Byte strings *)

Lemma app_cons c s t : String c s +:+ t = String c (s +:+ t).
Proof. reflexivity. Qed.

Lemma app_empty s : EmptyString +:+ s = s.
Proof. reflexivity. Qed.


Lemma to_lower_app s t :
  Text.to_lower (s +:+ t) = Text.to_lower s +:+ Text.to_lower t.
Proof. induction s as [|c s IH]; [done|]. rewrite app_cons. simpl. by rewrite IH. Qed.

Lemma strip_prefix_ci_sound p : ∀ s m r,
  Text.strip_prefix_ci p s = Some (m, r) →
  s = m +:+ r ∧ Text.to_lower m = Text.to_lower p.
Proof.
  induction p as [|a p IH]; intros s m r; simpl.
  - by intros [= <- <-].
  - destruct s as [|b s]; [done|].
    destruct (Text.eqb_ci a b) eqn:Hab; [|done].
    destruct (Text.strip_prefix_ci p s) as [[m' r']|] eqn:Hp; [|done].
    intros [= <- <-]. destruct (IH _ _ _ Hp) as [-> Hl].
    apply Ascii.eqb_eq in Hab. rewrite app_cons. simpl. by rewrite Hl, Hab.
Qed.

Lemma strip_prefix_ci_complete p : ∀ m r,
  Text.to_lower m = Text.to_lower p →
  Text.strip_prefix_ci p (m +:+ r) = Some (m, r).
Proof.
  induction p as [|a p IH]; intros [|b m] r; simpl; try done.
  intros [= Hb Hm]. unfold Text.eqb_ci.
  rewrite Hb, Ascii.eqb_refl. by rewrite IH.
Qed.

Lemma until_dquote_sound s : ∀ t,
  Regex.until_dquote s = Some t →
  ∃ post, s = t +:+ String Text.dquote post
    ∧ Text.mem Text.dquote t = false ∧ Text.mem Text.newline t = false.
Proof.
  induction s as [|c s IH]; intros t; simpl; [done|].
  destruct (Ascii.eqb c Text.dquote) eqn:Hq.
  - intros [= <-]. apply Ascii.eqb_eq in Hq as ->. by exists s.
  - unfold Text.is_newline. destruct (Ascii.eqb c Text.newline) eqn:Hn; [done|].
    destruct (Regex.until_dquote s) as [t'|]; [|done]. intros [= <-].
    destruct (IH t' eq_refl) as (post & -> & Hd & Hl).
    exists post. rewrite app_cons. cbn [Text.mem].
    rewrite (Ascii.eqb_sym _ c), Hq, (Ascii.eqb_sym _ c), Hn. done.
Qed.

Lemma until_dquote_complete t : ∀ post,
  Text.mem Text.dquote t = false → Text.mem Text.newline t = false →
  Regex.until_dquote (t +:+ String Text.dquote post) = Some t.
Proof.
  induction t as [|c t IH]; intros post; cbn [Text.mem].
  { intros _ _. rewrite app_empty. cbn [Regex.until_dquote].
    by rewrite Ascii.eqb_refl. }
  intros [Hq Hd]%orb_false_elim [Hn Hl]%orb_false_elim.
  rewrite app_cons. cbn [Regex.until_dquote]. unfold Text.is_newline.
  rewrite (Ascii.eqb_sym c), Hq, (Ascii.eqb_sym c), Hn.
  by rewrite IH.
Qed.

(** ** The image pattern *)

Lemma match_image_sound element s g :
  Regex.match_image element s = Some g → begins_with_image element s g.
Proof.
  unfold Regex.match_image. fold (image_tag element).
  destruct (Text.strip_prefix_ci (image_tag element) s) as [[tag r]|] eqn:Ht;
    [|done].
  destruct (Text.strip_prefix_ci "image" r) as [[img r']|] eqn:Hi; [|done].
  destruct (Regex.until_dquote r') as [rest|] eqn:Hr; [|done].
  intros [= <-].
  apply strip_prefix_ci_sound in Ht as [-> Htag].
  apply strip_prefix_ci_sound in Hi as [-> Himg].
  apply until_dquote_sound in Hr as (post & -> & Hd & Hn).
  by exists tag, img, rest, post.
Qed.

Lemma match_image_complete element s g :
  begins_with_image element s g → Regex.match_image element s = Some g.
Proof.
  intros (tag & img & rest & post & -> & Htag & Himg & Hd & Hn & ->).
  unfold Regex.match_image. fold (image_tag element).
  rewrite strip_prefix_ci_complete by done.
  rewrite strip_prefix_ci_complete by done.
  by rewrite until_dquote_complete.
Qed.

Lemma search_image_first element text : ∀ g,
  Regex.search_image element text = Some g →
  ∃ pre s, text = pre +:+ s
    ∧ Regex.match_image element s = Some g
    ∧ ∀ pre' s', text = pre' +:+ s' →
        (String.length pre' < String.length pre)%nat →
        Regex.match_image element s' = None.
Proof.
  induction text as [|c text IH]; intros g; simpl.
  - done.
  - destruct (Regex.match_image element (String c text)) eqn:Hm.
    + intros [= <-]. exists EmptyString, (String c text).
      split_and!; [done..|]. simpl. lia.
    + intros (pre & s & -> & Hs & Hfirst)%IH.
      exists (String c pre), s. split_and!; [done..|].
      intros [|c' pre'] s'; simpl.
      * rewrite app_empty. by intros <-.
      * rewrite !app_cons. intros [= <- Heq] Hlt. apply (Hfirst pre' s' Heq). lia.
Qed.

Lemma search_image_none element text :
  Regex.search_image element text = None →
  ∀ pre s, text = pre +:+ s → Regex.match_image element s = None.
Proof.
  induction text as [|c text IH]; simpl.
  - intros _ [|??] s'; [|done]. by rewrite app_empty; intros <-.
  - destruct (Regex.match_image element (String c text)) eqn:Hm; [done|].
    intros Hs [|c' pre] s'.
    + by rewrite app_empty; intros <-.
    + rewrite app_cons. intros [= <- Heq]. by eapply IH.
Qed.

Lemma contains_ci_suffix needle m : ∀ r,
  Text.contains_ci needle r = true → Text.contains_ci needle (m +:+ r) = true.
Proof.
  induction m as [|c m IH]; intros r Hr; [done|].
  rewrite app_cons. simpl.
  destruct (Text.strip_prefix_ci needle (String c (m +:+ r))); [done|].
  by apply IH.
Qed.

Lemma match_image_contains element s g :
  Regex.match_image element s = Some g → Text.contains_ci "image" s = true.
Proof.
  intros (tag & img & rest & post & -> & _ & Himg & _)%match_image_sound.
  apply contains_ci_suffix.
  destruct (img +:+ rest +:+ String Text.dquote post) eqn:Heq.
  - by destruct img.
  - rewrite <- Heq. clear Heq. 
    assert (Text.strip_prefix_ci "image" (img +:+ rest +:+ String Text.dquote post)
            = Some (img, rest +:+ String Text.dquote post)) as Hp.
    { by apply strip_prefix_ci_complete. }
    destruct img; [done|]. rewrite app_cons in *. simpl. simpl in Hp. by rewrite Hp.
Qed.

(** A document without [image], in any case, has no match. *)
Lemma search_image_needs_image element text :
  Text.contains_ci "image" text = false →
  Regex.search_image element text = None.
Proof.
  intros Hno. destruct (Regex.search_image element text) as [g|] eqn:Hs; [|done].
  apply search_image_first in Hs as (pre & s' & -> & Hm & _).
  apply match_image_contains in Hm.
  by rewrite (contains_ci_suffix _ pre s' Hm) in Hno.
Qed.

(** ** [get_image_info] and [get_image], case by case *)

Lemma get_image_info_none E element text site dbg w :
  Regex.search_image element text = None →
  get_image_info E element text site dbg w = (Ok None, w).
Proof. intros H. unfold get_image_info. by rewrite H. Qed.

Lemma get_image_info_some E element text site dbg w g :
  Regex.search_image element text = Some g →
  get_image_info E element text site dbg w
  = (match probe E (image_url site g) with
     | Headers (Some file_size) =>
         Ok (Some (image_url site g, OsPath.basename (image_url site g),
                   file_size))
     | Headers None => Raise TypeError
     | NoConnection => Raise IOError
     end, logged w (UrlOpen (image_url site g))).
Proof.
  intros H. unfold get_image_info. rewrite H. fold (image_url site g).
  unfold mbind, M_bind, emit. cbn.
  by destruct (probe E (image_url site g)) as [[n|]|].
Qed.



(** [get_image] when the anchor strategy finds nothing. *)
Lemma get_image_none E text dl site dbg w :
  Regex.search_image "a href" text = None →
  get_image E text dl site dbg w = (Ok None, w).
Proof.
  intros H. unfold get_image, mbind, M_bind.
  by rewrite get_image_info_none.
Qed.

(** [get_image] when the local file is there. *)
Lemma get_image_cached E text dl site dbg w g n :
  Regex.search_image "a href" text = Some g →
  probe E (image_url site g) = Headers (Some n) →
  is_Some (files w !! save_path dl (image_url site g)) →
  get_image E text dl site dbg w
  = (Ok (Some (save_path dl (image_url site g))),
     logged w (UrlOpen (image_url site g))).
Proof.
  intros Hs Hp Hf. unfold get_image, mbind, M_bind.
  rewrite (get_image_info_some _ _ _ _ _ _ _ Hs), Hp.
  fold (save_path dl (image_url site g)). unfold isfile. cbn [files logged].
  by rewrite bool_decide_eq_true_2.
Qed.

(** [get_image] when the local file is not there. *)
Lemma get_image_fresh E text dl site dbg w g n :
  Regex.search_image "a href" text = Some g →
  probe E (image_url site g) = Headers (Some n) →
  files w !! save_path dl (image_url site g) = None →
  let save_to := save_path dl (image_url site g) in
  let w1 := logged w (UrlOpen (image_url site g)) in
  get_image E text dl site dbg w
  = if n <? 500 then
      match Regex.search_image "img src" text with
      | None => (Ok None, w1)
      | Some g' =>
          let w2 := logged w1 (UrlOpen (image_url site g')) in
          match probe E (image_url site g') with
          | Headers (Some n') =>
              if n' <? 500 then (Exit, w2)
              else (Ok (Some save_to),
                    retrieved E w2 (image_url site g') save_to)
          | Headers None => (Raise TypeError, w2)
          | NoConnection => (Raise IOError, w2)
          end
      end
    else (Ok (Some save_to), retrieved E w1 (image_url site g) save_to).
Proof.
  intros Hs Hp Hf save_to w1. unfold get_image, mbind, M_bind.
  rewrite (get_image_info_some _ _ _ _ _ _ _ Hs), Hp.
  fold (save_path dl (image_url site g)). fold save_to. fold w1.
  unfold isfile. cbn [files logged w1].
  rewrite bool_decide_eq_false_2 by (fold save_to in Hf; rewrite Hf; by intros [??]).
  cbn [negb]. destruct (n <? 500) eqn:Hn.
  - destruct (Regex.search_image "img src" text) as [g'|] eqn:Hs'.
    + rewrite (get_image_info_some _ _ _ _ _ _ _ Hs').
      destruct (probe E (image_url site g')) as [[n'|]|] eqn:Hp'; try done.
      destruct (n' <? 500); [done|].
      unfold urlretrieve, mbind, M_bind, emit, store. cbn. by rewrite Hp'.
    + by rewrite get_image_info_none.
  - unfold urlretrieve, mbind, M_bind, emit, store. cbn. by rewrite Hp.
Qed.

(** ** No image on the page *)

(** C9. When no place of the document begins an occurrence of the
    strategy's pattern, the search finds nothing, [get_image_info]
    returns the triple of [None]s without an exception and without
    touching the network or the files, and [get_image], which starts
    with the anchor strategy, returns [None] and leaves the world as it
    was: no local image. *)
Theorem no_image_is_an_outcome E element text dl site dbg w :
  (∀ pre s g, text = pre +:+ s → ¬ begins_with_image element s g) →
  Regex.search_image element text = None
  ∧ get_image_info E element text site dbg w = (Ok None, w)
  ∧ (element = "a href" → get_image E text dl site dbg w = (Ok None, w)).
Proof.
  intros Hno.
  assert (Regex.search_image element text = None) as Hs.
  { destruct (Regex.search_image element text) as [g|] eqn:Hs; [|done].
    apply search_image_first in Hs as (pre & s & Heq & Hm & _).
    apply match_image_sound in Hm. by destruct (Hno pre s g). }
  split; [done|]. split; [by apply get_image_info_none|].
  intros ->. by apply get_image_none.
Qed.

Lemma no_image_is_an_outcome_witness :
  get_image Examples.plain Examples.video_page Examples.dir Examples.apod
    false Examples.empty_dir
  = (Ok None, Examples.empty_dir).
Proof.
  refine (proj2 (proj2 (no_image_is_an_outcome Examples.plain "a href"
    Examples.video_page Examples.dir Examples.apod false Examples.empty_dir
    _)) eq_refl).
  intros pre s g Heq Hb. apply match_image_complete in Hb.
  rewrite (search_image_none "a href" Examples.video_page eq_refl pre s Heq)
    in Hb.
  discriminate Hb.
Defined.

(** ** The first occurrence of the pattern *)

Lemma search_image_complete element pre : ∀ text s g,
  text = pre +:+ s →
  Regex.match_image element s = Some g →
  (∀ pre' s', text = pre' +:+ s' →
     (String.length pre' < String.length pre)%nat →
     Regex.match_image element s' = None) →
  Regex.search_image element text = Some g.
Proof.
  induction pre as [|c pre IH]; intros text s g -> Hm Hfirst.
  - rewrite app_empty. destruct s as [|c s]; [done|]. simpl. by rewrite Hm.
  - rewrite app_cons. simpl.
    rewrite (Hfirst EmptyString (String c (pre +:+ s))); [|done|simpl; lia].
    apply (IH _ s); [done|done|].
    intros pre' s' Heq Hlt. apply (Hfirst (String c pre') s').
    + by rewrite app_cons, Heq.
    + simpl. lia.
Qed.

(** C8, as the code has it. The locator takes the first place of the
    document where the tag of the strategy, in any case, is followed by
    a quoted path that starts with [image] in any case; the path runs to
    the next double quote of the line. It asks the server for the size
    of that URL, and the URL is the path itself when the path contains
    [http], the site's base URL followed by the path otherwise. *)
Theorem locator_takes_first_leading_image E element text site dbg w pre s g :
  text = pre +:+ s →
  begins_with_image element s g →
  (∀ pre' s' g', text = pre' +:+ s' →
     (String.length pre' < String.length pre)%nat →
     ¬ begins_with_image element s' g') →
  Regex.search_image element text = Some g
  ∧ get_image_info E element text site dbg w
    = (match probe E (image_url site g) with
       | Headers (Some file_size) =>
           Ok (Some (image_url site g, OsPath.basename (image_url site g),
                     file_size))
       | Headers None => Raise TypeError
       | NoConnection => Raise IOError
       end, logged w (UrlOpen (image_url site g)))
  ∧ image_url site g
    = (if Text.contains "http" g then g else site +:+ g).
Proof.
  intros Heq Hb Hfirst.
  assert (Regex.search_image element text = Some g) as Hs.
  { apply (search_image_complete element pre text s g Heq).
    - by apply match_image_complete.
    - intros pre' s' Heq' Hlt.
      destruct (Regex.match_image element s') as [g'|] eqn:Hm; [|done].
      apply match_image_sound in Hm. by destruct (Hfirst pre' s' g'). }
  split; [done|]. split; [|done]. by apply get_image_info_some.
Qed.

Lemma locator_takes_first_leading_image_witness :
  get_image_info Examples.plain "a href"
    (" " +:+ Examples.anchor "image/1201/big.jpg") Examples.apod false
    Examples.empty_dir
  = (Ok (Some ("http://apod.nasa.gov/apod/image/1201/big.jpg", "big.jpg",
               90000)),
     World ∅ [UrlOpen "http://apod.nasa.gov/apod/image/1201/big.jpg"]).
Proof.
  refine (proj1 (proj2 (locator_takes_first_leading_image Examples.plain
    "a href" (" " +:+ Examples.anchor "image/1201/big.jpg") Examples.apod
    false Examples.empty_dir " " (Examples.anchor "image/1201/big.jpg")
    "image/1201/big.jpg" _ _ _))).
  - reflexivity.
  - exists ("<a href=" +:+ Examples.q), "image", "/1201/big.jpg", ">".
    repeat split; reflexivity.
  - intros pre' s' g' Heq Hlt Hb. apply match_image_complete in Hb.
    destruct pre' as [|c pre']; [|simpl in Hlt; lia].
    rewrite app_empty in Heq. subst s'. vm_compute in Hb. discriminate Hb.
Defined.

(** C8, as the specification words it, fails twice: a path that has
    [image] after its first character is not found, and a relative path
    that has [http] in it is returned without the base URL. *)
Lemma locator_ignores_inner_image :
  Text.contains_ci "image" "apod/image/1201/big.jpg" = true
  ∧ get_image_info Examples.plain "a href" Examples.nested_page
      Examples.apod false Examples.empty_dir
    = (Ok None, Examples.empty_dir)
  ∧ Regex.search_image "a href" Examples.http_page
    = Some "image/http_logo.jpg"
  ∧ trace (get_image_info Examples.plain "a href" Examples.http_page
             Examples.apod false Examples.empty_dir).2
    = [UrlOpen "image/http_logo.jpg"].
Proof. repeat split; reflexivity. Qed.

(** ** Acquiring the same image again *)





(** ** A response below 500 bytes *)




(** ** Seeding *)

(** Whatever the page of the first seed day is, short of the literal
    text [error], the loop ends at the call of [get_image] with one
    argument: the two parameters without a default are not bound. *)
Lemma seed_loop_first_call_raises E fuel base rx ry dbg days left images w :
  0 < left →
  match site E (base +:+ "ap" +:+ yymmdd_back E (days + 1) +:+ ".html") with
  | Body reply => reply ≠ "error"
  | HTTPError _ => True
  | Unreachable => False
  end →
  seed_loop E (S fuel) base rx ry dbg days left images w
  = (Raise TypeError,
     logged w (SiteGet (base +:+ "ap" +:+ yymmdd_back E (days + 1)
                          +:+ ".html"))).
Proof.
  intros Hleft Hsite. cbn [seed_loop].
  apply Z.ltb_lt in Hleft. rewrite Hleft.
  unfold download_site, mbind, M_bind, emit. cbn.
  destruct (site E _) as [reply|code|]; [| |done].
  - cbn. apply String.eqb_neq in Hsite. by rewrite Hsite.
  - by cbn.
Qed.

(** C4. Seed target 3, an empty directory, a video on each of the two
    days before today and an image on each of the three days before
    those. The walk starts at yesterday, fetches that page, and ends
    there with a [TypeError]: the loop calls [get_image] with the page
    text only. No day is skipped, no image is acquired, the walk never
    reaches the second day. *)
Theorem seed_walk_stops_at_first_day fuel :
  Regex.search_image "a href" Examples.video_page = None
  ∧ Regex.search_image "a href" (Examples.image_page "seven")
    = Some "image/1201/seven.jpg"
  ∧ observe (create_desktop_background_scoll Examples.seeding (S fuel) None
               true 1200 Examples.dir 3 Examples.apod 1920 1080 false
               Examples.empty_dir)
    = (Raise TypeError, [],
       [SiteGet "http://apod.nasa.gov/apod/ap120109.html"]).
Proof. split_and!; reflexivity. Qed.

(** C10. With three images in the directory and a seed count of three
    no page of an earlier day is fetched; with two images seeding
    starts, as the comparison with the seed count says, and ends at the
    first day with a [TypeError] from the call of [get_image] with one
    argument, the directory still holding the two images. *)
Theorem seeding_starts_below_count_then_raises fuel :
  observe (create_desktop_background_scoll Examples.seeding (S fuel) None
             true 1200 Examples.dir 3 Examples.apod 1920 1080 false
             Examples.two_images)
  = (Raise TypeError,
     [("/tmp/backgrounds/a.png", Image 1920 1080);
      ("/tmp/backgrounds/b.png", Image 1920 1080)],
     [SiteGet "http://apod.nasa.gov/apod/ap120109.html"])
  ∧ (let r := create_desktop_background_scoll Examples.seeding (S fuel) None
                true 1200 Examples.dir 3 Examples.apod 1920 1080 false
                Examples.three_images in
     r.1 = Ok (Some "/tmp/backgrounds/nasa_apod_desktop_backgrounds.xml")
     ∧ trace r.2
       = [WroteXml "/tmp/backgrounds/nasa_apod_desktop_backgrounds.xml"]).
Proof. cbv zeta. split_and!; reflexivity. Qed.

(** ** A failed fetch *)

(** The text [download_site] returns for a status error is never the
    text its callers compare with. *)
Lemma error_reply_is_not_error (code : Z) :
  String.eqb ("Error: " +:+ pretty code) "error" = false.
Proof. reflexivity. Qed.

Lemma download_site_http_error E url code dbg w :
  site E url = HTTPError code →
  download_site E url dbg w
  = (Ok ("Error: " +:+ pretty code), logged w (SiteGet url)).
Proof.
  intros H. unfold download_site, mbind, M_bind, emit. cbn. by rewrite H.
Qed.

(** C6. Today's page answers with status 404. [download_site] returns
    the text [Error: 404]; [main] compares it with [error], goes on,
    finds no image in that text, writes the playlist of the images at
    hand and sets the wallpaper: the run is not ended. A seed day that
    answers 404 is not skipped either, the loop goes on to the call of
    [get_image]. When the site cannot be reached at all the exception
    leaves [download_site] and [main]. *)
Theorem failed_fetch_goes_unnoticed fuel :
  (download_site Examples.missing Examples.apod false Examples.one_image).1
  = Ok "Error: 404"
  ∧ (∀ code : Z, String.eqb ("Error: " +:+ pretty code) "error" = false)
  ∧ (let r := main Examples.missing fuel (Examples.opts 0)
                Examples.one_image in
     r.1 = Ok ()
     ∧ trace r.2
       = [SiteGet "http://apod.nasa.gov/apod/";
          WroteXml "/tmp/backgrounds/nasa_apod_desktop_backgrounds.xml";
          SetWallpaper "/tmp/backgrounds/nasa_apod_desktop_backgrounds.xml"])
  ∧ observe (seed_loop Examples.missing (S fuel) Examples.apod 1920 1080
               false 0 1 [] Examples.empty_dir)
    = (Raise TypeError, [],
       [SiteGet "http://apod.nasa.gov/apod/ap120109.html"])
  ∧ (main Examples.offline fuel (Examples.opts 0) Examples.one_image).1
    = Raise URLError.
Proof.
  cbv zeta. split_and!; reflexivity.
Qed.

(** * Further properties *)

(** ** Resizing *)



(** ** Whole runs *)

Lemma main_after_fetch E fuel opts w text rx ry :
  resolution E opts = Ok (rx, ry) →
  site E (NASA_APOD_SITE opts) = Body text →
  main E fuel opts w
  = if String.eqb text "error" then (Exit, fetched E opts w)
    else
      let download_path :=
        set_download_folder E (CUSTOM_FOLDER opts) (DOWNLOAD_PATH opts)
          (SHOW_DEBUG opts) in
      (filename ←
         get_image E text download_path (NASA_APOD_SITE opts)
           (SHOW_DEBUG opts);
       _ ← match filename with
           | Some filename => resize_image filename rx ry (SHOW_DEBUG opts)
           | None => mret ()
           end;
       filename ←
         create_desktop_background_scoll E fuel filename (IMAGE_SCROLL opts)
           (IMAGE_DURATION opts) download_path (SEED_IMAGES opts)
           (NASA_APOD_SITE opts) rx ry (SHOW_DEBUG opts);
       match filename with
       | None => sys_exit
       | Some filename => set_gnome_wallpaper filename false
       end) (fetched E opts w).
Proof.
  intros Hres Hsite. unfold main. fold (resolution E opts). rewrite Hres.
  unfold fetched. cbv zeta.
  set (dp := set_download_folder E _ _ _).
  unfold download_site, call_get_image.
  unfold mbind at 1, M_bind at 1. unfold lift at 1.
  unfold mbind at 1, M_bind at 1.
  destruct (is_dir E (home_of E dp)); cbn [negb].
  - unfold mret at 1, M_ret at 1. 
    unfold mbind at 1, M_bind at 1. unfold mbind at 1, M_bind at 1.
    unfold emit at 1. rewrite Hsite. unfold mret at 1, M_ret at 1.
    rewrite app_nil_r. by destruct (String.eqb text "error").
  - unfold emit at 1.
    unfold mbind at 1, M_bind at 1. unfold mbind at 1, M_bind at 1.
    unfold emit at 1. rewrite Hsite. unfold mret at 1, M_ret at 1.
    cbn [files trace]. by destruct (String.eqb text "error").
Qed.

(** X2. Without the playlist, a page of the day in which the anchor
    pattern finds no image ends the run through [exit()]: the page has
    been fetched, no file has changed, nothing was probed or
    downloaded and the wallpaper was not set. The text [error] is such
    a page. *)
Theorem main_exits_without_image E fuel opts w text rx ry :
  resolution E opts = Ok (rx, ry) →
  site E (NASA_APOD_SITE opts) = Body text →
  Regex.search_image "a href" text = None →
  IMAGE_SCROLL opts = false →
  main E fuel opts w = (Exit, fetched E opts w).
Proof.
  intros Hres Hsite Hs Hscroll.
  rewrite (main_after_fetch _ _ _ _ _ _ _ Hres Hsite).
  destruct (String.eqb text "error"); [done|]. cbv zeta.
  unfold mbind at 1, M_bind at 1. rewrite (get_image_none _ _ _ _ _ _ Hs).
  unfold create_desktop_background_scoll. rewrite Hscroll. done.
Qed.

Lemma search_image_error element :
  element = "a href" ∨ element = "img src" →
  Regex.search_image element "error" = None.
Proof. by intros [-> | ->]. Qed.

Lemma main_exits_without_image_witness :
  main Examples.seeding 0 (Cases.still (Examples.day_url "120109"))
    Examples.one_image
  = (Exit,
     World (files Examples.one_image)
       [SiteGet "http://apod.nasa.gov/apod/ap120109.html"]).
Proof.
  refine (main_exits_without_image Examples.seeding 0 _ Examples.one_image
            Examples.video_page 1920 1080 _ _ _ _); reflexivity.
Defined.

Lemma main_with_image E fuel opts w text rx ry g :
  resolution E opts = Ok (rx, ry) →
  site E (NASA_APOD_SITE opts) = Body text →
  Regex.search_image "a href" text = Some g →
  IMAGE_SCROLL opts = false →
  main E fuel opts w
  = (filename ←
       get_image E text
         (set_download_folder E (CUSTOM_FOLDER opts) (DOWNLOAD_PATH opts)
            (SHOW_DEBUG opts))
         (NASA_APOD_SITE opts) (SHOW_DEBUG opts);
     _ ← match filename with
         | Some filename => resize_image filename rx ry (SHOW_DEBUG opts)
         | None => mret ()
         end;
     match filename with
     | None => sys_exit
     | Some filename => set_gnome_wallpaper filename false
     end) (fetched E opts w).
Proof.
  intros Hres Hsite Hs Hscroll.
  rewrite (main_after_fetch _ _ _ _ _ _ _ Hres Hsite).
  destruct (String.eqb text "error") eqn:Herr.
  { apply String.eqb_eq in Herr. subst text.
    by rewrite search_image_error in Hs by auto. }
  cbv zeta. unfold create_desktop_background_scoll. rewrite Hscroll.
  cbn [negb]. unfold mbind, M_bind, mret, M_ret.
  destruct (get_image _ _ _ _ _ _) as [[[f|]| | |] w1]; [|done..].
  by destruct (resize_image _ _ _ _ _) as [[[]| | |] w2].
Qed.



(** X5. When what the server sends for the image is no image, the
    download is stored all the same and [resize_image] fails with
    [IOError]: the wallpaper is not set. The stored file stays: every
    later run for the same page finds it, downloads nothing and fails
    in the same way. *)
Theorem bad_download_stays E fuel opts w text rx ry g n :
  let url := image_url (NASA_APOD_SITE opts) g in
  let save_to :=
    save_path (set_download_folder E (CUSTOM_FOLDER opts)
                 (DOWNLOAD_PATH opts) (SHOW_DEBUG opts)) url in
  resolution E opts = Ok (rx, ry) →
  site E (NASA_APOD_SITE opts) = Body text →
  Regex.search_image "a href" text = Some g →
  probe E url = Headers (Some n) →
  500 ≤ n →
  files w !! save_to = None →
  is_image (payload E url) = false →
  IMAGE_SCROLL opts = false →
  main E fuel opts w
  = (Raise IOError,
     World (<[save_to := payload E url]> (files w))
       (trace (fetched E opts w) ++ [UrlOpen url; UrlRetrieve url save_to]))
  ∧ ∀ w', files w' !! save_to = Some (payload E url) →
      main E fuel opts w'
      = (Raise IOError,
         World (files w') (trace (fetched E opts w') ++ [UrlOpen url])).
Proof.
  intros url save_to Hres Hsite Hs Hp Hn Hf Hpay Hscroll. split.
  - rewrite (main_with_image _ _ _ _ _ _ _ _ Hres Hsite Hs Hscroll).
    unfold mbind at 1, M_bind at 1.
    rewrite (get_image_fresh _ _ _ _ _ _ _ _ Hs Hp) by done.
    cbv zeta. fold url. fold save_to.
    apply Z.ltb_ge in Hn. rewrite Hn.
    unfold resize_image, mbind, M_bind, load, retrieved, logged, raise, lift.
    cbn [files trace]. rewrite lookup_insert_eq, <- !app_assoc.
    by destruct (payload E url).
  - intros w' Hf'.
    rewrite (main_with_image _ _ _ _ _ _ _ _ Hres Hsite Hs Hscroll).
    unfold mbind at 1, M_bind at 1.
    rewrite (get_image_cached _ _ _ _ _ _ _ n Hs Hp)
      by (fold url; fold save_to; cbn [fetched files]; eauto).
    fold url. fold save_to.
    unfold resize_image, mbind, M_bind, load, logged, raise, lift.
    cbn [files trace fetched]. rewrite Hf'.
    by destruct (payload E url).
Qed.

Lemma bad_download_stays_witness :
  main Cases.broken 0 (Cases.still Examples.apod) Examples.empty_dir
  = (Raise IOError,
     World {[ "/tmp/backgrounds/big.png" := Bytes ]}
       [SiteGet "http://apod.nasa.gov/apod/";
        UrlOpen "http://apod.nasa.gov/apod/image/1201/big.jpg";
        UrlRetrieve "http://apod.nasa.gov/apod/image/1201/big.jpg"
          "/tmp/backgrounds/big.png"]).
Proof.
  refine (proj1 (bad_download_stays Cases.broken 0 (Cases.still Examples.apod)
            Examples.empty_dir (Examples.image_page "big") 1920 1080
            "image/1201/big.jpg" 90000 _ _ _ _ _ _ _ _));
    first [reflexivity | lia].
Defined.

(** X6. The local copy does not spare the network: the size of the
    remote image is asked for before the local file is looked at, so
    with the file in place [get_image] still raises [IOError] when the
    image cannot be opened, and [TypeError] when the answer has no
    [content-length]. Only the action of asking is added to the
    trace. *)
Theorem cache_needs_network E text dl site dbg w g :
  Regex.search_image "a href" text = Some g →
  is_Some (files w !! save_path dl (image_url site g)) →
  (probe E (image_url site g) = NoConnection →
   get_image E text dl site dbg w
   = (Raise IOError, logged w (UrlOpen (image_url site g))))
  ∧ (probe E (image_url site g) = Headers None →
     get_image E text dl site dbg w
     = (Raise TypeError, logged w (UrlOpen (image_url site g)))).
Proof.
  intros Hs _. unfold get_image, mbind, M_bind.
  rewrite (get_image_info_some _ _ _ _ _ _ _ Hs).
  split; by intros ->.
Qed.

Lemma cache_needs_network_witness :
  get_image Examples.offline (Examples.image_page "big") Examples.dir
    Examples.apod false Examples.one_image
  = (Raise IOError,
     World {[ "/tmp/backgrounds/big.png" := Image 1920 1080 ]}
       [UrlOpen "http://apod.nasa.gov/apod/image/1201/big.jpg"]).
Proof.
  refine (proj1 (cache_needs_network Examples.offline
            (Examples.image_page "big") Examples.dir Examples.apod false
            Examples.one_image "image/1201/big.jpg" _ _) _).
  - reflexivity.
  - by eexists.
  - reflexivity.
Defined.

(** ** The wallpaper is the last thing set *)

Lemma quiet_ret {A} (a : A) : quiet (mret a).
Proof. intros w. exists []. by rewrite app_nil_r. Qed.

Lemma quiet_lift {A} (o : outcome A) : quiet (lift o).
Proof. intros w. exists []. by rewrite app_nil_r. Qed.

Lemma quiet_emit e : is_wallpaper e = false → quiet (emit e).
Proof. intros H w. exists [e]. split; [done|]. by constructor. Qed.

Lemma quiet_bind {A B} (m : M A) (f : A → M B) :
  quiet m → (∀ a, quiet (f a)) → quiet (m ≫= f).
Proof.
  intros Hm Hf w. unfold mbind, M_bind.
  destruct (Hm w) as (t & Ht & Hq).
  destruct (m w) as [[a| | |] w1]; cbn [snd] in *; try by exists t.
  destruct (Hf a w1) as (t1 & Ht1 & Hq1).
  exists (t ++ t1). rewrite Ht1, Ht, app_assoc. split; [done|].
  by apply Forall_app.
Qed.

Lemma quiet_isfile path : quiet (isfile path).
Proof. intros w. exists []. by rewrite app_nil_r. Qed.

Lemma quiet_store path c : quiet (store path c).
Proof. intros w. exists []. cbn. by rewrite app_nil_r. Qed.

Lemma quiet_load path : quiet (load path).
Proof. intros w. exists []. by rewrite app_nil_r. Qed.

Lemma quiet_glob_png dl : quiet (glob_png dl).
Proof. intros w. exists []. by rewrite app_nil_r. Qed.

#[local] Hint Resolve quiet_ret quiet_lift quiet_isfile quiet_store
  quiet_load quiet_glob_png : quiet.
#[local] Hint Extern 1 (quiet (emit _)) => (apply quiet_emit; reflexivity)
  : quiet.
#[local] Hint Extern 1 (quiet (sys_exit)) => apply quiet_lift : quiet.
#[local] Hint Extern 1 (quiet (raise _)) => apply quiet_lift : quiet.

Lemma quiet_download_site E url dbg : quiet (download_site E url dbg).
Proof. unfold download_site. repeat monad_step (@quiet_bind). Qed.

Lemma quiet_get_image_info E element text site dbg :
  quiet (get_image_info E element text site dbg).
Proof. unfold get_image_info. repeat monad_step (@quiet_bind). Qed.

Lemma quiet_urlretrieve E url path : quiet (urlretrieve E url path).
Proof. unfold urlretrieve. repeat monad_step (@quiet_bind). Qed.

#[local] Hint Resolve quiet_download_site quiet_get_image_info
  quiet_urlretrieve : quiet.

Lemma quiet_get_image E text dl site dbg : quiet (get_image E text dl site dbg).
Proof. unfold get_image. repeat monad_step (@quiet_bind). Qed.

Lemma quiet_call_get_image E text dl site dbg :
  quiet (call_get_image E text dl site dbg).
Proof.
  unfold call_get_image. repeat monad_step (@quiet_bind); apply quiet_get_image.
Qed.

Lemma quiet_resize_image filename x y dbg :
  quiet (resize_image filename x y dbg).
Proof. unfold resize_image. repeat monad_step (@quiet_bind). Qed.

#[local] Hint Resolve quiet_get_image quiet_call_get_image
  quiet_resize_image : quiet.

Lemma quiet_seed_loop E fuel site x y dbg : ∀ days left images,
  quiet (seed_loop E fuel site x y dbg days left images).
Proof.
  induction fuel as [|fuel IH]; intros days left images; cbn [seed_loop].
  - repeat monad_step (@quiet_bind).
  - repeat monad_step (@quiet_bind); apply IH.
Qed.

#[local] Hint Resolve quiet_seed_loop : quiet.

Lemma quiet_create_desktop_background_scoll E fuel filename scroll duration
    dl seed site x y dbg :
  quiet (create_desktop_background_scoll E fuel filename scroll duration dl
           seed site x y dbg).
Proof. unfold create_desktop_background_scoll. repeat monad_step (@quiet_bind). Qed.

Lemma wallpaper_last_bind {A} (m : M A) (f : A → M ()) :
  quiet m → (∀ a, wallpaper_last (f a)) → wallpaper_last (m ≫= f).
Proof.
  intros Hm Hf w. unfold mbind, M_bind.
  destruct (Hm w) as (t & Ht & Hq).
  destruct (m w) as [[a| | |] w1]; cbn [fst snd] in *; try by exists t.
  destruct (Hf a w1) as (t1 & Ht1 & Hq1).
  exists (t ++ t1). rewrite Ht1, Ht, app_assoc. split; [done|].
  destruct (f a w1).1.
  - destruct Hq1 as (t' & path & -> & Hq1). exists (t ++ t'), path.
    rewrite app_assoc. split; [done|]. by apply Forall_app.
  - by apply Forall_app.
  - by apply Forall_app.
  - by apply Forall_app.
Qed.

Lemma wallpaper_last_leave o :
  (∀ u : (), o ≠ Ok u) → wallpaper_last (lift o).
Proof.
  intros Ho w. exists []. rewrite app_nil_r. split; [done|].
  cbn. destruct o as [[]| | |]; [|done..]. by destruct (Ho ()).
Qed.

Lemma wallpaper_last_set path dbg :
  wallpaper_last (set_gnome_wallpaper path dbg).
Proof.
  intros w. exists [SetWallpaper path]. split; [done|].
  cbn. exists [], path. by split.
Qed.

(** X7. In every run of [main], whatever the options, the outside
    world and the bound on the seeding loop: the wallpaper is set
    exactly when [main] returns, once, as its last action. A run that
    ends through [exit()], through an exception or in the seeding loop
    never sets it. *)
Theorem wallpaper_is_set_last E fuel opts : wallpaper_last (main E fuel opts).
Proof.
  unfold main.
  apply wallpaper_last_bind; [apply quiet_lift|intros [rx' ry']].
  apply wallpaper_last_bind; [repeat monad_step (@quiet_bind)|intros _].
  apply wallpaper_last_bind; [apply quiet_download_site|intros text].
  destruct (String.eqb text "error"); [by apply wallpaper_last_leave|].
  apply wallpaper_last_bind; [apply quiet_call_get_image|intros filename].
  apply wallpaper_last_bind; [repeat monad_step (@quiet_bind)|intros _].
  apply wallpaper_last_bind;
    [apply quiet_create_desktop_background_scoll|intros [path|]].
  - apply wallpaper_last_set.
  - by apply wallpaper_last_leave.
Qed.



(** X9. Whatever its outcome, [get_image] leaves every file alone
    but the one at the path derived from the name the anchor pattern
    found. *)
Theorem get_image_writes_one_path E text dl site dbg w p :
  (∀ g, Regex.search_image "a href" text = Some g →
        p ≠ save_path dl (image_url site g)) →
  files (get_image E text dl site dbg w).2 !! p = files w !! p.
Proof.
  intros Hp.
  destruct (Regex.search_image "a href" text) as [g|] eqn:Hs.
  2:{ by rewrite get_image_none. }
  specialize (Hp g eq_refl).
  destruct (probe E (image_url site g)) as [[n|]|] eqn:Hprobe.
  - destruct (files w !! save_path dl (image_url site g)) as [c|] eqn:Hf.
    + rewrite (get_image_cached _ _ _ _ _ _ _ n Hs Hprobe) by eauto. done.
    + rewrite (get_image_fresh _ _ _ _ _ _ _ n Hs Hprobe Hf). cbv zeta.
      repeat case_match; cbn [snd files retrieved logged];
        by rewrite ?lookup_insert_ne.
  - unfold get_image, mbind, M_bind.
    by rewrite (get_image_info_some _ _ _ _ _ _ _ Hs), Hprobe.
  - unfold get_image, mbind, M_bind.
    by rewrite (get_image_info_some _ _ _ _ _ _ _ Hs), Hprobe.
Qed.

Lemma get_image_writes_one_path_witness :
  files (get_image Examples.plain (Examples.image_page "big") Examples.dir
           Examples.apod false Examples.one_image).2
    !! "/tmp/backgrounds/other.png"
  = None.
Proof.
  rewrite (get_image_writes_one_path Examples.plain
             (Examples.image_page "big") Examples.dir Examples.apod false
             Examples.one_image "/tmp/backgrounds/other.png").
  - reflexivity.
  - intros g Hg. vm_compute in Hg. injection Hg as <-. vm_compute.
    discriminate.
Defined.

(** ** Seeding never completes *)

Lemma glob_png_images_in dl w : glob_png dl w = (Ok (images_in dl w), w).
Proof. reflexivity. Qed.

Lemma seed_loop_never_returns E fuel base x y dbg :
  ∀ days left images w,
  0 < left →
  let r := seed_loop E fuel base x y dbg days left images w in
  (r.1 = Raise TypeError ∨ r.1 = Raise URLError ∨ r.1 = Running)
  ∧ files r.2 = files w
  ∧ ∃ t, trace r.2 = trace w ++ t ∧ Forall (λ e, is_site_get e = true) t.
Proof.
  induction fuel as [|fuel IH]; intros days left images w Hleft;
    cbn [seed_loop]; apply Z.ltb_lt in Hleft as Hlt; rewrite Hlt; cbv zeta.
  - split_and!; [auto|done|]. exists []. by rewrite app_nil_r.
  - unfold download_site, mbind, M_bind, emit.
    set (url := base +:+ "ap" +:+ yymmdd_back E (days + 1) +:+ ".html").
    destruct (site E url) as [reply|code|]; cbn.
    + destruct (String.eqb reply "error").
      * destruct (IH (days + 1) left images
                    (World (files w) (trace w ++ [SiteGet url])) Hleft)
          as (Ho & Hf & t & Ht & Hall).
        split_and!; [done|done|]. exists (SiteGet url :: t).
        rewrite Ht. cbn [trace]. rewrite <- app_assoc. split; [done|].
        by constructor.
      * split_and!; [auto|done|]. exists [SiteGet url]. split; [done|].
        by constructor.
    + split_and!; [auto|done|]. exists [SiteGet url]. split; [done|].
      by constructor.
    + split_and!; [auto|done|]. exists [SiteGet url]. split; [done|].
      by constructor.
Qed.






Lemma create_without_seeding E fuel filename duration dl seed site x y dbg w :
  seed ≤ Z.of_nat (length (images_in dl w)) →
  create_desktop_background_scoll E fuel filename true duration dl seed site
    x y dbg w
  = (Ok (Some (playlist_path dl)),
     World
       (<[playlist_path dl :=
            Document
              (Element "background" None
                 (flat_map (slide_at duration (shuffled E (images_in dl w)))
                    (seq 0 (length (shuffled E (images_in dl w))))))]>
          (files w))
       (trace w ++ [WroteXml (playlist_path dl)])).
Proof.
  intros Hmany. unfold create_desktop_background_scoll.
  cbn [negb]. unfold mbind at 1, M_bind at 1. rewrite glob_png_images_in.
  apply Z.ltb_ge in Hmany. rewrite Hmany.
  unfold mbind at 1, M_bind at 1. unfold mret at 1, M_ret at 1.
  rewrite build_background_spec. reflexivity.
Qed.



Lemma create_scrolling_inv E fuel filename duration dl seed site x y dbg w r
    w1 :
  create_desktop_background_scoll E fuel filename true duration dl seed site
    x y dbg w = (Ok r, w1) →
  r = Some (playlist_path dl)
  ∧ (∃ t, trace w1 = t ++ [WroteXml (playlist_path dl)])
  ∧ ∃ background, files w1 !! playlist_path dl = Some (Document background).
Proof.
  destruct (Z.lt_ge_cases (Z.of_nat (length (images_in dl w))) seed)
    as [Hfew|Hmany].
  - intros Hrun. exfalso.
    assert (0 < seed) as Hseed by lia.
    pose proof (seed_loop_never_returns E fuel site x y dbg 0 seed
                  (images_in dl w) w Hseed) as H.
    cbv zeta in H. revert Hrun.
    unfold create_desktop_background_scoll. cbn [negb].
    unfold mbind at 1, M_bind at 1. rewrite glob_png_images_in.
    apply Z.ltb_lt in Hfew. rewrite Hfew.
    unfold mbind at 1, M_bind at 1.
    destruct (seed_loop E fuel site x y dbg 0 seed (images_in dl w) w)
      as [[l| |e|] w']; [|done..].
    destruct H as ([H|[H|H]] & _); discriminate H.
  - rewrite (create_without_seeding _ _ _ _ _ _ _ _ _ _ _ Hmany).
    intros [= <- <-]. split_and!; [done|by eexists|].
    cbn [files]. rewrite lookup_insert_eq. by eexists.
Qed.

(** X12. With the playlist on, a run of [main] that returns has
    written the playlist and set the playlist file, not the image of
    the day, as the wallpaper; these are its last two actions. *)
Theorem main_scrolling_sets_playlist E fuel opts w w1 :
  IMAGE_SCROLL opts = true →
  main E fuel opts w = (Ok (), w1) →
  let playlist :=
    playlist_path (set_download_folder E (CUSTOM_FOLDER opts)
                     (DOWNLOAD_PATH opts) (SHOW_DEBUG opts)) in
  (∃ t, trace w1 = t ++ [WroteXml playlist; SetWallpaper playlist])
  ∧ ∃ background, files w1 !! playlist = Some (Document background).
Proof.
  intros Hscroll Hrun playlist. revert Hrun. unfold main.
  rewrite Hscroll. cbv zeta.
  set (dp := set_download_folder E _ _ _) in *.
  unfold mbind at 1, M_bind at 1.
  destruct (lift _ w) as [[[rx ry]| | |] w2]; [|done..].
  unfold mbind at 1, M_bind at 1.
  set (prepare := if negb (is_dir E (home_of E dp))
                  then emit (MadeDirs (home_of E dp)) else mret ()).
  destruct (prepare w2) as [[[]| | |] w3]; [|done..].
  unfold mbind at 1, M_bind at 1.
  destruct (download_site _ _ _ w3) as [[text| | |] w4]; [|done..].
  destruct (String.eqb text "error"); [done|].
  unfold mbind at 1, M_bind at 1.
  destruct (call_get_image _ _ _ _ _ w4) as [[filename| | |] w5]; [|done..].
  unfold mbind at 1, M_bind at 1.
  set (resize := match filename with
                 | Some filename =>
                     resize_image filename rx ry (SHOW_DEBUG opts)
                 | None => mret ()
                 end).
  destruct (resize w5) as [[[]| | |] w6]; [|done..].
  unfold mbind at 1, M_bind at 1.
  destruct (create_desktop_background_scoll _ _ _ _ _ _ _ _ _ _ _ w6)
    as [[r| | |] w7] eqn:Hcreate; [|done..].
  apply create_scrolling_inv in Hcreate as (-> & [t Ht] & [bg Hbg]).
  fold playlist. unfold set_gnome_wallpaper, emit. intros [= <-].
  cbn [trace files]. split; [|by exists bg].
  exists t. by rewrite Ht, <- app_assoc.
Qed.

Lemma main_scrolling_sets_playlist_witness :
  ∃ t, trace (main Examples.plain 0 (Examples.opts 0) Examples.empty_dir).2
       = t ++ [WroteXml "/tmp/backgrounds/nasa_apod_desktop_backgrounds.xml";
               SetWallpaper
                 "/tmp/backgrounds/nasa_apod_desktop_backgrounds.xml"].
Proof.
  apply (main_scrolling_sets_playlist Examples.plain 0 (Examples.opts 0)
           Examples.empty_dir
           (main Examples.plain 0 (Examples.opts 0) Examples.empty_dir).2);
    reflexivity.
Defined.

(** ** Local file names *)

Lemma mem_app c a : ∀ b, Text.mem c (a +:+ b) = Text.mem c a || Text.mem c b.
Proof.
  induction a as [|d a IH]; intros b; [done|].
  rewrite app_cons. cbn [Text.mem]. by rewrite IH, orb_assoc.
Qed.

Lemma basename_plain name :
  Text.mem OsPath.slash name = false → OsPath.basename name = name.
Proof.
  destruct name as [|c name]; [done|]. cbn [Text.mem OsPath.basename].
  intros [Hc ->]%orb_false_iff.
  rewrite Ascii.eqb_sym in Hc. by rewrite Hc.
Qed.

Lemma basename_app pre name :
  Text.mem OsPath.slash name = false →
  OsPath.basename (pre +:+ "/" +:+ name) = name.
Proof.
  intros Hname. induction pre as [|c pre IH].
  - rewrite app_empty. change ("/" +:+ name) with (String "/" name).
    cbn [OsPath.basename]. by rewrite Hname.
  - rewrite app_cons. cbn [OsPath.basename].
    rewrite mem_app. change ("/" +:+ name) with (String "/" name).
    cbn [Text.mem]. change (Ascii.eqb OsPath.slash "/") with true.
    by rewrite orb_true_r.
Qed.

Lemma rfind_from_absent c p : ∀ i last,
  Text.mem c p = false → OsPath.rfind_from c i last p = last.
Proof.
  induction p as [|d p IH]; intros i last; [done|].
  cbn [Text.mem OsPath.rfind_from]. intros [-> Hp]%orb_false_iff.
  by apply IH.
Qed.

Lemma rfind_from_last c a b : ∀ i last,
  Text.mem c b = false →
  OsPath.rfind_from c i last (a +:+ String c b)
  = i + Z.of_nat (String.length a).
Proof.
  induction a as [|d a IH]; intros i last Hb.
  - rewrite app_empty. cbn [OsPath.rfind_from]. rewrite Ascii.eqb_refl.
    rewrite rfind_from_absent by done. cbn. lia.
  - rewrite app_cons. cbn [OsPath.rfind_from]. rewrite IH by done.
    cbn [String.length]. lia.
Qed.

Lemma substring_prefix a : ∀ b,
  String.substring 0 (String.length a) (a +:+ b) = a.
Proof.
  induction a as [|c a IH]; intros b.
  - rewrite app_empty. by destruct b.
  - rewrite app_cons. cbn. by rewrite IH.
Qed.

Lemma splitext_root_app stem ext :
  Text.mem OsPath.slash stem = false →
  OsPath.all_dots stem = false →
  Text.mem OsPath.slash ext = false →
  Text.mem OsPath.dot ext = false →
  OsPath.splitext_root (stem +:+ "." +:+ ext) = stem.
Proof.
  intros Hstem Hdots Hext Hdot. unfold OsPath.splitext_root, OsPath.rfind.
  change ("." +:+ ext) with (String OsPath.dot ext).
  rewrite (rfind_from_last OsPath.dot) by done.
  rewrite rfind_from_absent.
  2:{ rewrite mem_app. cbn [Text.mem]. by rewrite Hstem, Hext. }
  cbv zeta.
  assert ((-1 <? 0 + Z.of_nat (String.length stem)) = true) as ->
    by (apply Z.ltb_lt; lia).
  replace (Z.to_nat (-1 + 1)) with 0%nat by lia.
  replace (Z.to_nat (0 + Z.of_nat (String.length stem) - (-1 + 1)))
    with (String.length stem) by lia.
  replace (Z.to_nat (0 + Z.of_nat (String.length stem)))
    with (String.length stem) by lia.
  by rewrite substring_prefix, Hdots.
Qed.

Lemma all_dots_nonempty s : OsPath.all_dots s = false → s ≠ EmptyString.
Proof. by intros H ->. Qed.

Lemma join_plain dl name :
  dl ≠ EmptyString →
  OsPath.ends_with_slash dl = false →
  name ≠ EmptyString →
  Text.mem OsPath.slash name = false →
  OsPath.join dl name = dl +:+ "/" +:+ name.
Proof.
  intros Hdl Hend Hname Hslash. unfold OsPath.join. rewrite Hend.
  destruct name as [|c name]; [done|].
  cbn [Text.mem] in Hslash. apply orb_false_iff in Hslash as [Hc _].
  rewrite Ascii.eqb_sym in Hc. rewrite Hc. by destruct dl.
Qed.

Lemma save_path_app dl pre stem ext :
  dl ≠ EmptyString →
  OsPath.ends_with_slash dl = false →
  Text.mem OsPath.slash stem = false →
  OsPath.all_dots stem = false →
  Text.mem OsPath.slash ext = false →
  Text.mem OsPath.dot ext = false →
  save_path dl (pre +:+ "/" +:+ stem +:+ "." +:+ ext)
  = dl +:+ "/" +:+ stem +:+ ".png".
Proof.
  intros Hdl Hend Hstem Hdots Hext Hdot. unfold save_path.
  rewrite basename_app.
  2:{ rewrite mem_app. change ("." +:+ ext) with (String "." ext).
      cbn [Text.mem]. by rewrite Hstem, Hext. }
  rewrite splitext_root_app by done.
  apply join_plain; [done|done| |].
  - apply all_dots_nonempty in Hdots. by destruct stem.
  - rewrite mem_app. by rewrite Hstem.
Qed.

(** X14. The local path of an image keeps the name of the remote
    file without its directory and with the extension replaced by
    [.png]. Two URLs whose file names differ in the directory or in
    the extension only share one local path. *)
Theorem save_path_replaces_extension dl pre stem ext :
  dl ≠ EmptyString →
  OsPath.ends_with_slash dl = false →
  Text.mem OsPath.slash stem = false →
  OsPath.all_dots stem = false →
  Text.mem OsPath.slash ext = false →
  Text.mem OsPath.dot ext = false →
  save_path dl (pre +:+ "/" +:+ stem +:+ "." +:+ ext)
  = dl +:+ "/" +:+ stem +:+ ".png"
  ∧ ∀ pre' ext',
      Text.mem OsPath.slash ext' = false →
      Text.mem OsPath.dot ext' = false →
      save_path dl (pre' +:+ "/" +:+ stem +:+ "." +:+ ext')
      = save_path dl (pre +:+ "/" +:+ stem +:+ "." +:+ ext).
Proof.
  intros Hdl Hend Hstem Hdots Hext Hdot. split.
  - by apply save_path_app.
  - intros pre' ext' Hext' Hdot'. by rewrite !save_path_app.
Qed.

Lemma save_path_replaces_extension_witness :
  save_path "/tmp/backgrounds" "http://apod.nasa.gov/apod/image/1201/big.jpg"
  = "/tmp/backgrounds/big.png".
Proof.
  refine (proj1 (save_path_replaces_extension "/tmp/backgrounds"
            "http://apod.nasa.gov/apod/image/1201" "big" "jpg" _ _ _ _ _ _));
    first [discriminate | reflexivity].
Defined.






(** ** The current size of the screen *)

















(** X4. Without the playlist, when the image of the day is stored
    already with the resolution of [find_resolution], a run asks for
    the size of the remote image and sets the wallpaper; it downloads
    nothing, resizes nothing and changes no file. *)
Theorem main_keeps_settled_image E fuel opts w text rx ry g n :
  let url := image_url (NASA_APOD_SITE opts) g in
  let save_to :=
    save_path (set_download_folder E (CUSTOM_FOLDER opts)
                 (DOWNLOAD_PATH opts) (SHOW_DEBUG opts)) url in
  resolution E opts = Ok (rx, ry) →
  site E (NASA_APOD_SITE opts) = Body text →
  Regex.search_image "a href" text = Some g →
  probe E url = Headers (Some n) →
  files w !! save_to = Some (Image rx ry) →
  IMAGE_SCROLL opts = false →
  main E fuel opts w
  = (Ok (),
     World (files w)
       (trace (fetched E opts w) ++ [UrlOpen url; SetWallpaper save_to])).
Proof.
  intros url save_to Hres Hsite Hs Hp Hf Hscroll.
  rewrite (main_with_image _ _ _ _ _ _ _ _ Hres Hsite Hs Hscroll).
  unfold mbind at 1, M_bind at 1.
  rewrite (get_image_cached _ _ _ _ _ _ _ n Hs Hp)
    by (fold url; fold save_to; cbn [fetched files]; eauto).
  fold url. fold save_to.
  unfold resize_image, set_gnome_wallpaper, mbind, M_bind, load, emit, logged.
  cbn [files trace fetched]. rewrite Hf, !Z.eqb_refl.
  cbn [andb mret M_ret files trace]. by rewrite <- !app_assoc.
Qed.

Lemma main_keeps_settled_image_witness :
  main Examples.plain 0 (Cases.still Examples.apod) Examples.one_image
  = (Ok (),
     World {[ "/tmp/backgrounds/big.png" := Image 1920 1080 ]}
       [SiteGet "http://apod.nasa.gov/apod/";
        UrlOpen "http://apod.nasa.gov/apod/image/1201/big.jpg";
        SetWallpaper "/tmp/backgrounds/big.png"]).
Proof.
  refine (main_keeps_settled_image Examples.plain 0
            (Cases.still Examples.apod) Examples.one_image
            (Examples.image_page "big") 1920 1080 "image/1201/big.jpg" 90000
            _ _ _ _ _ _); reflexivity.
Defined.
